(** * connect-go-prometheus: the metrics interceptor of [interceptor.go]

    A shallow embedding of the two variants of the interceptor that the
    repository holds (one that counts requests and observes their duration,
    one that only counts), and the properties of the specification settled
    against it.

    Conventions.
    - Go strings are byte strings: [string] of the Standard Library.
    - [connect.StreamType] is a [uint8]: a [Z] in [0, 256).
    - A Go [error] or response interface value that may be nil is an [option].
    - The instruments are mutable objects reached through the pointers of
      the [Interceptor] struct: their contents are part of the state that is
      threaded through a call, and the delegate, which is arbitrary code,
      may change that state as it likes.
    - Every invocation of the delegate is appended to a log kept beside the
      state, out of the delegate's reach, so that "invoked exactly once"
      and "never invoked" are statements about that log. *)

From Stdlib Require Import String Ascii ZArith List Lia.
From Stdlib Require QArith.
From stdpp Require Import gmap strings list fin_maps.

Local Open Scope string_scope.
Local Open Scope Z_scope.

(* ===================================================================== *)
(** ** Package [strings] of the Go library *)
(* ===================================================================== *)

Module GoStrings.

(** [strings.Split(s, sep)] for a separator of one byte, the only use the
    interceptor makes of it ([sep = "/"]): the substrings of [s] between the
    occurrences of [sep], in order. The result is never empty: a string
    without the separator is returned whole, as the single segment. *)
Fixpoint Split (s : string) (sep : ascii) : list string :=
  match s with
  | EmptyString => [EmptyString]
  | String c s' =>
      if Ascii.eqb c sep then EmptyString :: Split s' sep
      else match Split s' sep with
           | seg :: segs => String c seg :: segs
           | [] => [String c EmptyString]
           end
  end.

(** The number of occurrences of the byte [sep] in [s]. *)
Fixpoint Count (s : string) (sep : ascii) : nat :=
  match s with
  | EmptyString => O
  | String c s' => if Ascii.eqb c sep then S (Count s' sep) else Count s' sep
  end.

(** [strings.IndexByte(s, c) < 0], as a boolean. *)
Definition free_of (sep : ascii) (s : string) : bool :=
  Nat.eqb (Count s sep) O.

End GoStrings.

(** The separator of the procedure identifier. *)
Definition slash : ascii := "/"%char.

(* ===================================================================== *)
(** ** Package [connect] (github.com/bufbuild/connect-go) *)
(* ===================================================================== *)

Module Connect.

(** Modelled from the spec: the type [connect.StreamType] and its four
    constants are declared in the connect-go dependency, which is not under
    src/. The type is an unsigned byte; the constants are the four
    call-shapes of the spec's data model, numbered by the two flags
    "client streams" (bit 0) and "server streams" (bit 1). The Go compiler
    refuses a [switch] with two equal constant cases, so the four are
    pairwise distinct in any case. *)
Definition StreamType : Type := Z.
Definition StreamTypeUnary : StreamType := 0.
Definition StreamTypeClient : StreamType := 1.
Definition StreamTypeServer : StreamType := 2.
Definition StreamTypeBidi : StreamType := Z.lor StreamTypeClient StreamTypeServer.

(** A value of the byte type. *)
Definition StreamType_wf (t : StreamType) : Prop := 0 <= t < 256.

(** Modelled from the spec: the status codes [connect.Code], with
    [connect.CodeOf] and [Code.String], are declared in the connect-go
    dependency, which is not under src/. The spec's data model gives a
    failure "a status code drawn from a fixed enumeration": canceled,
    unknown, invalid-argument, deadline-exceeded, not-found, already-exists,
    permission-denied, resource-exhausted, failed-precondition, aborted,
    out-of-range, unimplemented, internal, unavailable, data-loss and
    unauthenticated ("ok" is the label of a success, not the code of a
    failure). The enumeration is closed here: a code outside it is not a
    value of the type. *)
Inductive Code : Type :=
| CodeCanceled
| CodeUnknown
| CodeInvalidArgument
| CodeDeadlineExceeded
| CodeNotFound
| CodeAlreadyExists
| CodePermissionDenied
| CodeResourceExhausted
| CodeFailedPrecondition
| CodeAborted
| CodeOutOfRange
| CodeUnimplemented
| CodeInternal
| CodeUnavailable
| CodeDataLoss
| CodeUnauthenticated.

(** Every status of the enumeration. *)
Definition all_codes : list Code :=
  [ CodeCanceled; CodeUnknown; CodeInvalidArgument; CodeDeadlineExceeded;
    CodeNotFound; CodeAlreadyExists; CodePermissionDenied;
    CodeResourceExhausted; CodeFailedPrecondition; CodeAborted;
    CodeOutOfRange; CodeUnimplemented; CodeInternal; CodeUnavailable;
    CodeDataLoss; CodeUnauthenticated ].

(** Modelled from the spec: [Code.String], "the canonical string name of
    the outcome's status code"; the names are the lower-case, underscore
    separated ones of the protocol. *)
Definition Code_String (c : Code) : string :=
  match c with
  | CodeCanceled => "canceled"
  | CodeUnknown => "unknown"
  | CodeInvalidArgument => "invalid_argument"
  | CodeDeadlineExceeded => "deadline_exceeded"
  | CodeNotFound => "not_found"
  | CodeAlreadyExists => "already_exists"
  | CodePermissionDenied => "permission_denied"
  | CodeResourceExhausted => "resource_exhausted"
  | CodeFailedPrecondition => "failed_precondition"
  | CodeAborted => "aborted"
  | CodeOutOfRange => "out_of_range"
  | CodeUnimplemented => "unimplemented"
  | CodeInternal => "internal"
  | CodeUnavailable => "unavailable"
  | CodeDataLoss => "data_loss"
  | CodeUnauthenticated => "unauthenticated"
  end.

(** A non-nil Go [error]: either an error of the RPC framework, which
    carries a status code and the error it wraps, or any other error, which
    carries only its message (what [fmt.Errorf] builds). *)
Inductive error : Type :=
| Errorf (msg : string)
| NewError (c : Code) (underlying : error).

(** Modelled from the spec: [connect.CodeOf], the status code of a failure,
    with the fall back to "unknown" for a failure that "carries no
    recognizable code". *)
Definition CodeOf (err : error) : Code :=
  match err with
  | NewError c _ => c
  | Errorf _ => CodeUnknown
  end.

(** [connect.Spec], the description of a call: the three fields the
    interceptor reads. *)
Record Spec : Type := mkSpec {
  StreamType_of : StreamType;
  Procedure : string;
  IsClient : bool
}.

(** [connect.AnyRequest]: the request of a unary call, of which the
    interceptor reads only [Spec()]; the message is opaque. *)
Record AnyRequest (Msg : Type) : Type := mkRequest {
  Request_Spec : Spec;
  Request_Any : Msg
}.
Arguments mkRequest {Msg} _ _.
Arguments Request_Spec {Msg} _.
Arguments Request_Any {Msg} _.

End Connect.

Import Connect.

(* ===================================================================== *)
(** ** The two label derivations (identical in both variants) *)
(* ===================================================================== *)

(** [code]: the code based on an error; if the error is nil the code is ok. *)
Definition code (err : option error) : string :=
  match err with
  | None => "ok"
  | Some e => Code_String (CodeOf e)
  end.

(** [streamType]: a string for the [connect.StreamType]. *)
Definition streamType (t : StreamType) : string :=
  if t =? StreamTypeUnary then "unary"
  else if t =? StreamTypeClient then "client_stream"
  else if t =? StreamTypeServer then "server_stream"
  else if t =? StreamTypeBidi then "bidi_stream"
  else "".

(* ===================================================================== *)
(** ** Package [prometheus]: the metrics backend *)
(* ===================================================================== *)

Module Prometheus.

(** The values given for the labels of one observation, in the order of the
    label names of the instrument. *)
Abbreviation LabelValues := (list string) (only parsing).

(** [prometheus.CounterOpts], the fields the constructor fills. *)
Record CounterOpts : Type := mkCounterOpts {
  Counter_Name : string;
  Counter_Help : string
}.

(** [prometheus.HistogramOpts], the fields the constructor fills. The
    bucket factor is the decimal literal of the source, as a rational. *)
Record HistogramOpts : Type := mkHistogramOpts {
  Histogram_Name : string;
  Histogram_Help : string;
  NativeHistogramBucketFactor : QArith_base.Q;
  NativeHistogramMaxBucketNumber : Z
}.

(** Modelled from the spec: [prometheus.CounterVec] is declared in the
    client_golang dependency, which is not under src/. The spec gives the
    backend as the capability "given a label set, increment a counter":
    one count per label combination, absent until first used; every label
    combination is accepted. *)
Record CounterVec : Type := mkCounterVec {
  Counter_opts : CounterOpts;
  Counter_labelNames : list string;
  Counter_metrics : gmap (list string) nat
}.

(** Modelled from the spec: [prometheus.HistogramVec], the capability
    "observe a duration": the observations of each label combination, in
    the order they were made. An observation is kept as the elapsed time in
    nanoseconds ([time.Duration]); its conversion to seconds as a floating
    point number is left out. *)
Record HistogramVec : Type := mkHistogramVec {
  Histogram_opts : HistogramOpts;
  Histogram_labelNames : list string;
  Histogram_metrics : gmap (list string) (list Z)
}.

(** The count of one label combination (0 when it was never used). *)
Definition Counter_value (lvs : LabelValues) (c : CounterVec) : nat :=
  default O (Counter_metrics c !! lvs).

(** The observations of one label combination. *)
Definition Histogram_observations (lvs : LabelValues) (h : HistogramVec) : list Z :=
  default [] (Histogram_metrics h !! lvs).

(** [c.WithLabelValues(lvs...).Inc()]. *)
Definition Inc (lvs : LabelValues) (c : CounterVec) : CounterVec :=
  {| Counter_opts := Counter_opts c;
     Counter_labelNames := Counter_labelNames c;
     Counter_metrics := <[lvs := S (Counter_value lvs c)]> (Counter_metrics c) |}.

(** [h.WithLabelValues(lvs...).Observe(d)]. *)
Definition Observe (lvs : LabelValues) (d : Z) (h : HistogramVec) : HistogramVec :=
  {| Histogram_opts := Histogram_opts h;
     Histogram_labelNames := Histogram_labelNames h;
     Histogram_metrics :=
       <[lvs := (Histogram_observations lvs h ++ [d])%list]> (Histogram_metrics h) |}.

(** What a registry knows of a registered instrument. *)
Inductive Collector : Type :=
| CounterCollector (opts : CounterOpts) (labelNames : list string)
| HistogramCollector (opts : HistogramOpts) (labelNames : list string).

Definition Collector_labelNames (c : Collector) : list string :=
  match c with
  | CounterCollector _ l => l
  | HistogramCollector _ l => l
  end.

(** Modelled from the spec: [prometheus.Registerer] is declared in the
    client_golang dependency, which is not under src/. The spec gives the
    registry as the capability that "accepts instrument registration;
    fails or panics if the same instrument name is registered twice": the
    registered instruments by name. *)
Abbreviation Registerer := (gmap string Collector) (only parsing).

(** [reg.MustRegister(c)]: [None] is the panic on a name already taken. *)
Definition MustRegister (name : string) (c : Collector)
           (reg : Registerer) : option Registerer :=
  match reg !! name with
  | Some _ => None
  | None => Some (<[name := c]> reg)
  end.

(** [promauto.With(reg).NewCounterVec(opts, labelNames)]: a new, empty
    counter, registered with [reg]. *)
Definition NewCounterVec (reg : Registerer) (opts : CounterOpts)
           (labelNames : list string) : option (CounterVec * Registerer) :=
  reg' ← MustRegister (Counter_Name opts) (CounterCollector opts labelNames) reg;
  Some (mkCounterVec opts labelNames ∅, reg').

(** [promauto.With(reg).NewHistogramVec(opts, labelNames)]. *)
Definition NewHistogramVec (reg : Registerer) (opts : HistogramOpts)
           (labelNames : list string) : option (HistogramVec * Registerer) :=
  reg' ← MustRegister (Histogram_Name opts) (HistogramCollector opts labelNames) reg;
  Some (mkHistogramVec opts labelNames ∅, reg').

End Prometheus.

Import Prometheus.

(* ===================================================================== *)
(** ** The state of a call and the monad a wrapped function runs in *)
(* ===================================================================== *)

(** What a call can read and change: the instruments the interceptor's
    pointers lead to, the wall clock in nanoseconds, and the rest of the
    process, which only the delegate knows. *)
Record State (I W : Type) : Type := mkState {
  instruments : I;
  clock : Z;
  world : W
}.
Arguments mkState {I W} _ _ _.
Arguments instruments {I W} _.
Arguments clock {I W} _.
Arguments world {I W} _.

Definition with_instruments {I W} (f : I -> I) (st : State I W) : State I W :=
  mkState (f (instruments st)) (clock st) (world st).

Module Traced.
Section Traced.

(** [St] is the state; [Call] is what the log keeps of one invocation of
    the delegate. *)
Context {St Call : Type}.

Definition M (A : Type) : Type := St -> list Call -> A * St * list Call.

Definition ret {A} (a : A) : M A := fun st log => (a, st, log).

Definition bind {A B} (k : A -> M B) (m : M A) : M B :=
  fun st log => let '(a, st', log') := m st log in k a st' log'.

#[global] Instance M_ret : MRet M := @ret.
#[global] Instance M_bind : MBind M := @bind.

Definition gets {A} (f : St -> A) : M A := fun st log => (f st, st, log).

Definition modify (f : St -> St) : M unit := fun st log => (tt, f st, log).

(** Run the delegate [f] on the state and log the invocation as [c]. *)
Definition invoke {A} (c : Call) (f : St -> A * St) : M A :=
  fun st log => let '(a, st') := f st in (a, st', (log ++ [c])%list).

(** The three components of a finished run. *)
Definition result {A} (r : A * St * list Call) : A := fst (fst r).
Definition final {A} (r : A * St * list Call) : St := snd (fst r).
Definition calls {A} (r : A * St * list Call) : list Call := snd r.

End Traced.
End Traced.

Import Traced.

Import GoStrings.

(** The message of the error for a malformed procedure:
    [fmt.Errorf("procedure in prometheus interceptor malformed: %s", p)]. *)
Definition malformed (p : string) : error :=
  NewError CodeInternal
    (Errorf ("procedure in prometheus interceptor malformed: " ++ p)).

(* ===================================================================== *)
(** ** The interceptor that counts requests and observes their duration *)
(* ===================================================================== *)

Module WithDuration.

(** The struct [Interceptor]. Its fields are pointers to the instruments;
    the record holds what they point to, and lives in the [State]. *)
Record Interceptor : Type := mkInterceptor {
  clientRequests : CounterVec;
  clientDuration : HistogramVec;
  serverRequests : CounterVec;
  serverDuration : HistogramVec
}.

Definition on_clientRequests (f : CounterVec -> CounterVec) (i : Interceptor) :=
  mkInterceptor (f (clientRequests i)) (clientDuration i)
                (serverRequests i) (serverDuration i).
Definition on_clientDuration (f : HistogramVec -> HistogramVec) (i : Interceptor) :=
  mkInterceptor (clientRequests i) (f (clientDuration i))
                (serverRequests i) (serverDuration i).
Definition on_serverRequests (f : CounterVec -> CounterVec) (i : Interceptor) :=
  mkInterceptor (clientRequests i) (clientDuration i)
                (f (serverRequests i)) (serverDuration i).
Definition on_serverDuration (f : HistogramVec -> HistogramVec) (i : Interceptor) :=
  mkInterceptor (clientRequests i) (clientDuration i)
                (serverRequests i) (f (serverDuration i)).

(** [NewInterceptor]: creates a new interceptor that registers metrics with
    the passed registerer. [None] is the panic of a registration. *)
Definition NewInterceptor (reg : Registerer) : option (Interceptor * Registerer) :=
  let labelNames := ["code"; "method"; "service"; "type"] in
  '(cr, reg) ← NewCounterVec reg
      {| Counter_Name := "connect_client_requests_total";
         Counter_Help := "Tracks the number of connect client requests by code, method, service and type." |}
      labelNames;
  '(cd, reg) ← NewHistogramVec reg
      {| Histogram_Name := "connect_client_requests_duration_seconds";
         Histogram_Help := "Tracks the latencies of connect client requests by code, method, service and type.";
         NativeHistogramBucketFactor := QArith_base.Qmake 11 10;
         NativeHistogramMaxBucketNumber := 100 |}
      labelNames;
  '(sr, reg) ← NewCounterVec reg
      {| Counter_Name := "connect_server_requests_total";
         Counter_Help := "Tracks the number of connect server requests by code, method, service and type." |}
      labelNames;
  '(sd, reg) ← NewHistogramVec reg
      {| Histogram_Name := "connect_server_requests_duration_seconds";
         Histogram_Help := "Tracks the latencies of connect server requests by code, method, service and type.";
         NativeHistogramBucketFactor := QArith_base.Qmake 11 10;
         NativeHistogramMaxBucketNumber := 100 |}
      labelNames;
  Some (mkInterceptor cr cd sr sd, reg).

Section Calls.

(** The context of a call, the message of a request, a response, the rest of
    the process, and the two kinds of streaming function: all opaque. *)
Context {Ctx Msg Resp W StreamingClientFunc StreamingHandlerFunc : Type}.

(** [connect.UnaryFunc]: arbitrary code, run on the state. *)
Definition UnaryFunc : Type :=
  Ctx -> AnyRequest Msg -> State Interceptor W ->
  (option Resp * option error) * State Interceptor W.

(** The monad of a wrapped function: the log keeps the context and the
    request of each invocation of the delegate. *)
Definition Run : Type -> Type :=
  @M (State Interceptor W) (Ctx * AnyRequest Msg).

(** [WrapUnary]: the function returned for the delegate [next]. What the
    receiver [i] points to is the [instruments] field of the state;
    [time.Now()] reads the clock of the state and [time.Since(start)] is the
    clock read again, less [start]. *)
Definition WrapUnary (next : UnaryFunc)
  : Ctx -> AnyRequest Msg -> Run (option Resp * option error) :=
  fun ctx req =>
    let spec := Request_Spec req in
    let procedure := Split (Procedure spec) slash in
    if negb (length procedure =? 3)%nat then
      mret (None, Some (malformed (Procedure spec)))
    else
      let service := nth 1 procedure "" in
      let method := nth 2 procedure "" in
      start ← gets clock;
      (* Execute the actual request. *)
      '(resp, err) ← invoke (ctx, req) (next ctx req);
      (if IsClient spec then
         modify (with_instruments (on_clientRequests
           (Inc [code err; method; service; streamType (StreamType_of spec)])));;
         now ← gets clock;
         modify (with_instruments (on_clientDuration
           (Observe [code err; method; service; streamType (StreamType_of spec)]
                    (now - start))))
       else
         modify (with_instruments (on_serverRequests
           (Inc [code err; method; service; streamType (StreamType_of spec)])));;
         now ← gets clock;
         modify (with_instruments (on_serverDuration
           (Observe [code err; method; service; streamType (StreamType_of spec)]
                    (now - start)))));;
      mret (resp, err).

(** [WrapStreamingClient]: nop for now. *)
Definition WrapStreamingClient (handle : StreamingClientFunc)
  : Run StreamingClientFunc :=
  mret handle.

(** [WrapStreamingHandler]: nop for now. *)
Definition WrapStreamingHandler (handle : StreamingHandlerFunc)
  : Run StreamingHandlerFunc :=
  mret handle.

End Calls.

End WithDuration.

(* ===================================================================== *)
(** ** The interceptor that only counts requests *)
(* ===================================================================== *)

Module CounterOnly.

(** The struct [Interceptor] of this variant: the two counters. *)
Record Interceptor : Type := mkInterceptor {
  clientRequests : CounterVec;
  serverRequests : CounterVec
}.

Definition on_clientRequests (f : CounterVec -> CounterVec) (i : Interceptor) :=
  mkInterceptor (f (clientRequests i)) (serverRequests i).
Definition on_serverRequests (f : CounterVec -> CounterVec) (i : Interceptor) :=
  mkInterceptor (clientRequests i) (f (serverRequests i)).

(** [NewInterceptor] of this variant. *)
Definition NewInterceptor (reg : Registerer) : option (Interceptor * Registerer) :=
  let labelCode := "code" in
  let labelMethod := "method" in
  let labelService := "service" in
  let labelType := "type" in
  '(cr, reg) ← NewCounterVec reg
      {| Counter_Name := "connect_client_requests_total";
         Counter_Help := "Tracks the number of connect client requests by code, method, service and type." |}
      [labelCode; labelMethod; labelService; labelType];
  '(sr, reg) ← NewCounterVec reg
      {| Counter_Name := "connect_server_requests_total";
         Counter_Help := "Tracks the number of connect server requests by code, method, service and type." |}
      [labelCode; labelMethod; labelService; labelType];
  Some (mkInterceptor cr sr, reg).

Section Calls.

Context {Ctx Msg Resp W StreamingClientFunc StreamingHandlerFunc : Type}.

Definition UnaryFunc : Type :=
  Ctx -> AnyRequest Msg -> State Interceptor W ->
  (option Resp * option error) * State Interceptor W.

Definition Run : Type -> Type :=
  @M (State Interceptor W) (Ctx * AnyRequest Msg).

(** [WrapUnary] of this variant: no clock is read. *)
Definition WrapUnary (next : UnaryFunc)
  : Ctx -> AnyRequest Msg -> Run (option Resp * option error) :=
  fun ctx req =>
    let spec := Request_Spec req in
    let procedure := Split (Procedure spec) slash in
    if negb (length procedure =? 3)%nat then
      mret (None, Some (malformed (Procedure spec)))
    else
      let service := nth 1 procedure "" in
      let method := nth 2 procedure "" in
      (* Execute the actual request. *)
      '(resp, err) ← invoke (ctx, req) (next ctx req);
      (if IsClient spec then
         modify (with_instruments (on_clientRequests
           (Inc [code err; method; service; streamType (StreamType_of spec)])))
       else
         modify (with_instruments (on_serverRequests
           (Inc [code err; method; service; streamType (StreamType_of spec)]))));;
      mret (resp, err).

(** [WrapStreamingClient]: nop for now. *)
Definition WrapStreamingClient (handle : StreamingClientFunc)
  : Run StreamingClientFunc :=
  mret handle.

(** [WrapStreamingHandler]: nop for now. *)
Definition WrapStreamingHandler (handle : StreamingHandlerFunc)
  : Run StreamingHandlerFunc :=
  mret handle.

End Calls.

End CounterOnly.

(* ===================================================================== *)
(** ** Vocabulary of the statements *)
(* ===================================================================== *)

(** The four label values the interceptor computes for a call whose
    delegate returned [err]: code, method, service, type. *)
Definition label_values (spec : Spec) (err : option error) : list string :=
  let procedure := Split (Procedure spec) slash in
  [code err; nth 2 procedure ""; nth 1 procedure "";
   streamType (StreamType_of spec)].

(** The procedure identifier has exactly three segments. *)
Definition three_segments (p : string) : bool :=
  (length (Split p slash) =? 3)%nat.



(** The four names of the instruments. *)
Definition client_total : string := "connect_client_requests_total".
Definition client_duration : string := "connect_client_requests_duration_seconds".
Definition server_total : string := "connect_server_requests_total".
Definition server_duration : string := "connect_server_requests_duration_seconds".

(** The label schema shared by the instruments. *)
Definition schema : list string := ["code"; "method"; "service"; "type"].

(** The four names as a set. *)
Definition instrument_names : gset string :=
  {[client_total; client_duration; server_total; server_duration]}.

(** The counter [c] is new and is the instrument registered in [reg] under
    [name], with the shared label schema. *)
Definition registered_counter (reg : gmap string Collector) (name : string)
           (c : CounterVec) : Prop :=
  reg !! name = Some (CounterCollector (Counter_opts c) (Counter_labelNames c)) ∧
  Counter_Name (Counter_opts c) = name ∧
  Counter_labelNames c = schema ∧
  Counter_metrics c = ∅.

(** The histogram [h] is new and is the instrument registered in [reg] under
    [name], with the shared label schema, the bucket growth factor 1.1 and at
    most 100 buckets. *)
Definition registered_histogram (reg : gmap string Collector) (name : string)
           (h : HistogramVec) : Prop :=
  reg !! name = Some (HistogramCollector (Histogram_opts h) (Histogram_labelNames h)) ∧
  Histogram_Name (Histogram_opts h) = name ∧
  Histogram_labelNames h = schema ∧
  NativeHistogramBucketFactor (Histogram_opts h) = QArith_base.Qmake 11 10 ∧
  NativeHistogramMaxBucketNumber (Histogram_opts h) = 100 ∧
  Histogram_metrics h = ∅.

(** What the recording of one call leaves of the instruments [i], in the
    variant with durations: one increment and one observation of the elapsed
    time [d], on the pair of instruments of the call's direction. *)
Definition recorded_with_duration (spec : Spec) (err : option error) (d : Z)
           (i : WithDuration.Interceptor) : WithDuration.Interceptor :=
  let lvs := label_values spec err in
  if IsClient spec then
    WithDuration.on_clientDuration (Observe lvs d)
      (WithDuration.on_clientRequests (Inc lvs) i)
  else
    WithDuration.on_serverDuration (Observe lvs d)
      (WithDuration.on_serverRequests (Inc lvs) i).

(** The same in the variant that only counts: one increment. *)
Definition recorded_counter_only (spec : Spec) (err : option error)
           (i : CounterOnly.Interceptor) : CounterOnly.Interceptor :=
  let lvs := label_values spec err in
  if IsClient spec then CounterOnly.on_clientRequests (Inc lvs) i
  else CounterOnly.on_serverRequests (Inc lvs) i.

(** A small instance to run the definitions on: contexts, messages and
    responses are numbers, the rest of the process is a number as well. *)
Module Sample.

Definition emptyCounter (name : string) : CounterVec :=
  mkCounterVec (mkCounterOpts name "") schema ∅.

Definition emptyHistogram (name : string) : HistogramVec :=
  mkHistogramVec (mkHistogramOpts name "" (QArith_base.Qmake 11 10) 100) schema ∅.

Definition full : WithDuration.Interceptor :=
  WithDuration.mkInterceptor
    (emptyCounter client_total) (emptyHistogram client_duration)
    (emptyCounter server_total) (emptyHistogram server_duration).

Definition counters : CounterOnly.Interceptor :=
  CounterOnly.mkInterceptor (emptyCounter client_total) (emptyCounter server_total).

Definition st_full : State WithDuration.Interceptor nat := mkState full 1000 0%nat.
Definition st_counters : State CounterOnly.Interceptor nat := mkState counters 1000 0%nat.

(** A delegate that succeeds with response 7 after 250 ns, and counts its
    own runs in the rest of the process. *)
Definition succeed {I} (ctx : nat) (req : AnyRequest nat) (st : State I nat)
  : (option nat * option error) * State I nat :=
  ((Some 7%nat, None), mkState (instruments st) (clock st + 250) (S (world st))).

(** A delegate that fails with the status not-found. *)
Definition fail_not_found {I} (ctx : nat) (req : AnyRequest nat) (st : State I nat)
  : (option nat * option error) * State I nat :=
  ((None, Some (NewError CodeNotFound (Errorf "no such thing"))),
   mkState (instruments st) (clock st + 40) (S (world st))).

Definition request (p : string) (t : StreamType) (client : bool) : AnyRequest nat :=
  mkRequest (mkSpec t p client) 42%nat.

End Sample.

(* ===================================================================== *)
(** ** Further vocabulary: joined segments, totals, a sequence of calls *)
(* ===================================================================== *)

(** [strings.Join(segs, sep)] for a separator of one byte: the segments with
    the separator between them. *)
Fixpoint Join (segs : list string) (sep : ascii) : string :=
  match segs with
  | [] => ""
  | seg :: rest =>
      match rest with
      | [] => seg
      | _ :: _ => seg ++ String sep (Join rest sep)
      end
  end.





Module Pipeline.
Section Pipeline.

Context {St Call Ctx Req R : Type}.



End Pipeline.
End Pipeline.

Import Pipeline.

(** More of the small instance: a sequence of calls, and a second process
    whose contexts are booleans and whose messages and responses are texts. *)
Module Traffic.


Definition request_text (p : string) (t : StreamType) (client : bool)
  : AnyRequest string :=
  mkRequest (mkSpec t p client) "hello".

Definition st_full_text : State WithDuration.Interceptor bool :=
  mkState Sample.full 77 true.

Definition st_counters_text : State CounterOnly.Interceptor bool :=
  mkState Sample.counters 77 true.

(** A delegate that gives a partial response beside another not-found
    error, after 40 ns. *)
Definition fail_gone {I} (ctx : bool) (req : AnyRequest string) (st : State I bool)
  : (option string * option error) * State I bool :=
  ((Some "partial", Some (NewError CodeNotFound (Errorf "gone"))),
   mkState (instruments st) (clock st + 40) (negb (world st))).

End Traffic.

(** Unfolds the operations of the monad in a run. *)
Ltac run_monad :=
  unfold mbind, M_bind, bind, mret, M_ret, ret, gets, modify, invoke; simpl.

(** A registry in which some other component took the name of the client
    duration histogram. *)
Module Registries.

Definition duration_taken : gmap string Collector :=
  {[ client_duration := CounterCollector (mkCounterOpts client_duration "") [] ]}.

End Registries.

(* ===================================================================== *)
(** ** Splitting a procedure identifier *)
(* ===================================================================== *)

Section SplitFacts.

Variable sep : ascii.

Lemma Split_not_nil (s : string) : Split s sep ≠ [].
Proof.
  destruct s as [|c s']; simpl; [discriminate|].
  destruct (Ascii.eqb c sep); [discriminate|].
  destruct (Split s' sep); discriminate.
Qed.




End SplitFacts.


(* ===================================================================== *)
(** ** One increment, one observation *)
(* ===================================================================== *)





(* ===================================================================== *)
(** ** The two paths of a wrapped unary function *)
(* ===================================================================== *)

Section Paths.

Context {Ctx Msg Resp W : Type}.

(** A malformed procedure: the error is returned at once; the state and the
    log are as they were. *)
Lemma WithDuration_malformed (next : @WithDuration.UnaryFunc Ctx Msg Resp W)
      ctx req st log :
  three_segments (Procedure (Request_Spec req)) = false →
  WithDuration.WrapUnary next ctx req st log
  = (None, Some (malformed (Procedure (Request_Spec req))), st, log).
Proof.
  unfold three_segments, WithDuration.WrapUnary. intros ->. reflexivity.
Qed.

Lemma CounterOnly_malformed (next : @CounterOnly.UnaryFunc Ctx Msg Resp W)
      ctx req st log :
  three_segments (Procedure (Request_Spec req)) = false →
  CounterOnly.WrapUnary next ctx req st log
  = (None, Some (malformed (Procedure (Request_Spec req))), st, log).
Proof.
  unfold three_segments, CounterOnly.WrapUnary. intros ->. reflexivity.
Qed.

(** Three segments: the delegate runs on the state of entry, its invocation
    is logged, its result is returned, and the call is recorded on the state
    the delegate left. *)
Lemma WithDuration_delegated (next : @WithDuration.UnaryFunc Ctx Msg Resp W)
      ctx req st log :
  three_segments (Procedure (Request_Spec req)) = true →
  WithDuration.WrapUnary next ctx req st log
  = (fst (next ctx req st),
     with_instruments
       (recorded_with_duration (Request_Spec req) (snd (fst (next ctx req st)))
          (clock (snd (next ctx req st)) - clock st))
       (snd (next ctx req st)),
     (log ++ [(ctx, req)])%list).
Proof.
  unfold three_segments, WithDuration.WrapUnary, recorded_with_duration,
    label_values.
  intros ->. run_monad.
  destruct (next ctx req st) as [[resp err] mid]; simpl.
  destruct (IsClient (Request_Spec req)); reflexivity.
Qed.

Lemma CounterOnly_delegated (next : @CounterOnly.UnaryFunc Ctx Msg Resp W)
      ctx req st log :
  three_segments (Procedure (Request_Spec req)) = true →
  CounterOnly.WrapUnary next ctx req st log
  = (fst (next ctx req st),
     with_instruments
       (recorded_counter_only (Request_Spec req) (snd (fst (next ctx req st))))
       (snd (next ctx req st)),
     (log ++ [(ctx, req)])%list).
Proof.
  unfold three_segments, CounterOnly.WrapUnary, recorded_counter_only,
    label_values.
  intros ->. run_monad.
  destruct (next ctx req st) as [[resp err] mid]; simpl.
  destruct (IsClient (Request_Spec req)); reflexivity.
Qed.

End Paths.


(* ===================================================================== *)
(** ** The label derivations *)
(* ===================================================================== *)

Lemma Code_String_not_empty (c : Code) : Code_String c ≠ "".
Proof. destruct c; discriminate. Qed.

(** C5. The derivation of the code label is total over the outcomes: a nil
    error gives "ok"; a failure that carries a status gives the canonical
    name of that status, for every status of the enumeration; a failure that
    carries no status gives "unknown"; the label is never empty. The
    canonical names are sixteen different strings, none of them "ok". *)
Theorem code_label_total :
  code None = "ok" ∧
  (∀ (c : Code) (underlying : error),
     c ∈ all_codes ∧ code (Some (NewError c underlying)) = Code_String c) ∧
  (∀ msg : string, code (Some (Errorf msg)) = "unknown") ∧
  (∀ err : option error, code err ≠ "") ∧
  map Code_String all_codes
  = [ "canceled"; "unknown"; "invalid_argument"; "deadline_exceeded";
      "not_found"; "already_exists"; "permission_denied";
      "resource_exhausted"; "failed_precondition"; "aborted"; "out_of_range";
      "unimplemented"; "internal"; "unavailable"; "data_loss";
      "unauthenticated" ] ∧
  NoDup ("ok" :: map Code_String all_codes).
Proof.
  split; [reflexivity|]. split.
  { intros c underlying. split; [|reflexivity].
    destruct c; unfold all_codes; set_solver. }
  split; [reflexivity|]. split.
  { intros [e|]; simpl; [apply Code_String_not_empty | discriminate]. }
  split; [reflexivity|].
  apply (bool_decide_unpack _). vm_compute. exact I.
Qed.

(** C6. The derivation of the type label is a fixed total mapping: unary
    gives "unary", client streaming "client_stream", server streaming
    "server_stream", bidirectional "bidi_stream", and every other value of
    the type gives the empty string. *)
Theorem streamType_total_mapping :
  streamType StreamTypeUnary = "unary" ∧
  streamType StreamTypeClient = "client_stream" ∧
  streamType StreamTypeServer = "server_stream" ∧
  streamType StreamTypeBidi = "bidi_stream" ∧
  (∀ t : StreamType,
     t ≠ StreamTypeUnary → t ≠ StreamTypeClient →
     t ≠ StreamTypeServer → t ≠ StreamTypeBidi →
     streamType t = "").
Proof.
  repeat split; try reflexivity.
  intros t HU HC HS HB. unfold streamType.
  destruct (Z.eqb_spec t StreamTypeUnary); [contradiction|].
  destruct (Z.eqb_spec t StreamTypeClient); [contradiction|].
  destruct (Z.eqb_spec t StreamTypeServer); [contradiction|].
  destruct (Z.eqb_spec t StreamTypeBidi); [contradiction|].
  reflexivity.
Qed.

(** The unrecognized shapes at work: every byte from 4 to 255. *)
Lemma streamType_total_mapping_witness :
  StreamType_wf 200 ∧ streamType 200 = "".
Proof.
  split; [unfold StreamType_wf; lia|].
  apply (proj2 (proj2 (proj2 (proj2 streamType_total_mapping))) 200);
    intros H; vm_compute in H; discriminate H.
Defined.

(* ===================================================================== *)
(** ** The streaming paths *)
(* ===================================================================== *)

(** C8. Both streaming wrap operations, in both variants, are the identity:
    each returns the delegate it was given, and leaves the state, the
    instruments in it and the log of invocations as they were. *)
Theorem streaming_wraps_are_identity :
  (∀ (Ctx Msg W SC SH : Type) (hc : SC) (hh : SH)
      (st : State WithDuration.Interceptor W) (log : list (Ctx * AnyRequest Msg)),
     WithDuration.WrapStreamingClient hc st log = (hc, st, log) ∧
     WithDuration.WrapStreamingHandler hh st log = (hh, st, log)) ∧
  (∀ (Ctx Msg W SC SH : Type) (hc : SC) (hh : SH)
      (st : State CounterOnly.Interceptor W) (log : list (Ctx * AnyRequest Msg)),
     CounterOnly.WrapStreamingClient hc st log = (hc, st, log) ∧
     CounterOnly.WrapStreamingHandler hh st log = (hh, st, log)).
Proof. split; intros; split; reflexivity. Qed.

(* ===================================================================== *)
(** ** The unary path: which identifiers are rejected *)
(* ===================================================================== *)

Lemma three_segments_false (p : string) :
  length (Split p slash) ≠ 3%nat → three_segments p = false.
Proof. intros H. now apply Nat.eqb_neq. Qed.



(** C2, as the code has it. For every procedure identifier that does not
    split on '/' into exactly three segments (such as "bad", "/only" and
    "/a/b/c/d"), the wrapped unary function of either variant returns the
    internal error whose message names the identifier, the delegate is not
    invoked, and nothing is recorded: the state is as it was. *)
Theorem malformed_procedure_rejected :
  (∀ (Ctx Msg Resp W : Type) (next : @WithDuration.UnaryFunc Ctx Msg Resp W)
      ctx req st log,
     length (Split (Procedure (Request_Spec req)) slash) ≠ 3%nat →
     let r := WithDuration.WrapUnary next ctx req st log in
     snd (result r)
     = Some (NewError CodeInternal
               (Errorf ("procedure in prometheus interceptor malformed: "
                        ++ Procedure (Request_Spec req)))) ∧
     code (snd (result r)) = "internal" ∧
     calls r = log ∧
     final r = st) ∧
  (∀ (Ctx Msg Resp W : Type) (next : @CounterOnly.UnaryFunc Ctx Msg Resp W)
      ctx req st log,
     length (Split (Procedure (Request_Spec req)) slash) ≠ 3%nat →
     let r := CounterOnly.WrapUnary next ctx req st log in
     snd (result r)
     = Some (NewError CodeInternal
               (Errorf ("procedure in prometheus interceptor malformed: "
                        ++ Procedure (Request_Spec req)))) ∧
     code (snd (result r)) = "internal" ∧
     calls r = log ∧
     final r = st) ∧
  length (Split "bad" slash) = 1%nat ∧
  length (Split "/only" slash) = 2%nat ∧
  length (Split "/a/b/c/d" slash) = 5%nat.
Proof.
  split; [|split; [|repeat split]].
  - intros Ctx Msg Resp W next ctx req st log H r. subst r.
    rewrite (WithDuration_malformed next ctx req st log (three_segments_false _ H)).
    repeat split.
  - intros Ctx Msg Resp W next ctx req st log H r. subst r.
    rewrite (CounterOnly_malformed next ctx req st log (three_segments_false _ H)).
    repeat split.
Qed.

(** The identifier "bad" on the sample state of each variant. *)
Lemma malformed_procedure_rejected_witness :
  (let r := WithDuration.WrapUnary Sample.succeed 1%nat
              (Sample.request "bad" StreamTypeUnary true) Sample.st_full [] in
   code (snd (result r)) = "internal" ∧ calls r = [] ∧ final r = Sample.st_full) ∧
  (let r := CounterOnly.WrapUnary Sample.succeed 1%nat
              (Sample.request "bad" StreamTypeUnary true) Sample.st_counters [] in
   code (snd (result r)) = "internal" ∧ calls r = [] ∧ final r = Sample.st_counters).
Proof.
  split.
  - apply (proj1 malformed_procedure_rejected nat nat nat nat Sample.succeed 1%nat
             (Sample.request "bad" StreamTypeUnary true) Sample.st_full []).
    vm_compute. lia.
  - apply (proj1 (proj2 malformed_procedure_rejected) nat nat nat nat
             Sample.succeed 1%nat
             (Sample.request "bad" StreamTypeUnary true) Sample.st_counters []).
    vm_compute. lia.
Defined.

(** C2, as stated, fails at its own example "/only/one": the leading slash
    gives an empty first segment, so the identifier has three segments; the
    delegate is invoked, its success is returned, and the call is counted
    with service "only" and method "one". *)
Lemma only_one_is_delegated :
  let req := Sample.request "/only/one" StreamTypeUnary false in
  let r := WithDuration.WrapUnary Sample.succeed 1%nat req Sample.st_full [] in
  Split "/only/one" slash = [""; "only"; "one"] ∧
  result r = (Some 7%nat, None) ∧
  calls r = [(1%nat, req)] ∧
  Counter_value ["ok"; "one"; "only"; "unary"]
    (WithDuration.serverRequests (instruments (final r))) = 1%nat.
Proof. vm_compute. repeat split. Qed.

(** C10. When the procedure identifier is rejected, the response returned
    beside the internal error is nil, in both variants. *)
Theorem malformed_procedure_nil_response :
  (∀ (Ctx Msg Resp W : Type) (next : @WithDuration.UnaryFunc Ctx Msg Resp W)
      ctx req st log,
     length (Split (Procedure (Request_Spec req)) slash) ≠ 3%nat →
     let r := WithDuration.WrapUnary next ctx req st log in
     fst (result r) = None ∧ snd (result r) ≠ None) ∧
  (∀ (Ctx Msg Resp W : Type) (next : @CounterOnly.UnaryFunc Ctx Msg Resp W)
      ctx req st log,
     length (Split (Procedure (Request_Spec req)) slash) ≠ 3%nat →
     let r := CounterOnly.WrapUnary next ctx req st log in
     fst (result r) = None ∧ snd (result r) ≠ None).
Proof.
  split; intros Ctx Msg Resp W next ctx req st log H r; subst r.
  - rewrite (WithDuration_malformed next ctx req st log (three_segments_false _ H)).
    split; [reflexivity | discriminate].
  - rewrite (CounterOnly_malformed next ctx req st log (three_segments_false _ H)).
    split; [reflexivity | discriminate].
Qed.

(** The identifier "/a/b/c/d", with a delegate that would have answered. *)
Lemma malformed_procedure_nil_response_witness :
  fst (result (WithDuration.WrapUnary Sample.succeed 1%nat
                 (Sample.request "/a/b/c/d" StreamTypeBidi false)
                 Sample.st_full [])) = None ∧
  fst (result (CounterOnly.WrapUnary Sample.succeed 1%nat
                 (Sample.request "/a/b/c/d" StreamTypeBidi false)
                 Sample.st_counters [])) = None.
Proof.
  split.
  - apply (proj1 malformed_procedure_nil_response nat nat nat nat
             Sample.succeed 1%nat
             (Sample.request "/a/b/c/d" StreamTypeBidi false) Sample.st_full []).
    vm_compute. lia.
  - apply (proj2 malformed_procedure_nil_response nat nat nat nat
             Sample.succeed 1%nat
             (Sample.request "/a/b/c/d" StreamTypeBidi false) Sample.st_counters []).
    vm_compute. lia.
Defined.




(* ===================================================================== *)
(** ** The unary path: the delegate and its answer *)
(* ===================================================================== *)



(* ===================================================================== *)
(** ** The unary path: what is recorded *)
(* ===================================================================== *)







(* ===================================================================== *)
(** ** The constructor *)
(* ===================================================================== *)

Lemma MustRegister_fresh (name : string) (c : Collector)
      (reg : gmap string Collector) :
  reg !! name = None → MustRegister name c reg = Some (<[name := c]> reg).
Proof. unfold MustRegister. now intros ->. Qed.

(** A name already taken makes the constructor panic. *)
Lemma MustRegister_taken (name : string) (c : Collector)
      (reg : gmap string Collector) :
  is_Some (reg !! name) → MustRegister name c reg = None.
Proof. unfold MustRegister. now intros [c' ->]. Qed.

(** C9, as the code has it. On a registry that holds none of the names, the
    constructor of the variant with durations registers exactly four
    instruments: the counters connect_client_requests_total and
    connect_server_requests_total and the histograms
    connect_client_requests_duration_seconds and
    connect_server_requests_duration_seconds, all with the label schema
    code, method, service, type, each histogram with the bucket growth
    factor 1.1 and at most 100 buckets. The constructor of the variant
    that only counts registers exactly two: the two counters, with the same
    schema. What the registry held before stays. *)
Theorem constructor_registers_instruments :
  (∀ reg : gmap string Collector,
     reg !! client_total = None →
     reg !! client_duration = None →
     reg !! server_total = None →
     reg !! server_duration = None →
     ∃ i reg',
       WithDuration.NewInterceptor reg = Some (i, reg') ∧
       size reg' = (size reg + 4)%nat ∧
       dom reg' = instrument_names ∪ dom reg ∧
       (∀ n, n ∉ instrument_names → reg' !! n = reg !! n) ∧
       registered_counter reg' client_total (WithDuration.clientRequests i) ∧
       registered_histogram reg' client_duration (WithDuration.clientDuration i) ∧
       registered_counter reg' server_total (WithDuration.serverRequests i) ∧
       registered_histogram reg' server_duration (WithDuration.serverDuration i)) ∧
  (∀ reg : gmap string Collector,
     reg !! client_total = None →
     reg !! server_total = None →
     ∃ i reg',
       CounterOnly.NewInterceptor reg = Some (i, reg') ∧
       size reg' = (size reg + 2)%nat ∧
       dom reg' = {[client_total; server_total]} ∪ dom reg ∧
       (∀ n, n ≠ client_total → n ≠ server_total → reg' !! n = reg !! n) ∧
       registered_counter reg' client_total (CounterOnly.clientRequests i) ∧
       registered_counter reg' server_total (CounterOnly.serverRequests i)).
Proof.
  unfold instrument_names, registered_counter, registered_histogram,
    client_total, client_duration, server_total, server_duration.
  split.
  - intros reg H1 H2 H3 H4.
    unfold WithDuration.NewInterceptor, NewCounterVec, NewHistogramVec.
    cbn [Counter_Name Histogram_Name].
    rewrite (MustRegister_fresh _ _ _ H1); cbn [mbind option_bind].
    rewrite MustRegister_fresh by (now rewrite lookup_insert_ne); cbn [mbind option_bind].
    rewrite MustRegister_fresh by (now rewrite !lookup_insert_ne); cbn [mbind option_bind].
    rewrite MustRegister_fresh by (now rewrite !lookup_insert_ne); cbn [mbind option_bind].
    eexists; eexists; split; [reflexivity|].
    split.
    { rewrite !map_size_insert_None; [lia | | | |]; now rewrite ?lookup_insert_ne. }
    split.
    { rewrite !dom_insert_L. apply set_eq. intros x.
      rewrite !elem_of_union, !elem_of_singleton. tauto. }
    split.
    { intros n Hn. rewrite !lookup_insert_ne; [reflexivity | | | |]; set_solver. }
    cbn. repeat split;
      repeat (first [ now rewrite lookup_insert_eq
                    | rewrite lookup_insert_ne by done ]).
  - intros reg H1 H3.
    unfold CounterOnly.NewInterceptor, NewCounterVec.
    cbn [Counter_Name].
    rewrite (MustRegister_fresh _ _ _ H1); cbn [mbind option_bind].
    rewrite MustRegister_fresh by (now rewrite lookup_insert_ne); cbn [mbind option_bind].
    eexists; eexists; split; [reflexivity|].
    split.
    { rewrite !map_size_insert_None; [lia | |]; now rewrite ?lookup_insert_ne. }
    split.
    { rewrite !dom_insert_L. apply set_eq. intros x.
      rewrite !elem_of_union, !elem_of_singleton. tauto. }
    split.
    { intros n Hc Hs. now rewrite !lookup_insert_ne. }
    cbn. repeat split;
      repeat (first [ now rewrite lookup_insert_eq
                    | rewrite lookup_insert_ne by done ]).
Qed.

(** The two constructors on an empty registry. *)
Lemma constructor_registers_instruments_witness :
  (∃ i reg', WithDuration.NewInterceptor ∅ = Some (i, reg') ∧
             size reg' = 4%nat ∧ dom reg' = instrument_names) ∧
  (∃ i reg', CounterOnly.NewInterceptor ∅ = Some (i, reg') ∧
             size reg' = 2%nat ∧ dom reg' = {[client_total; server_total]}).
Proof.
  split.
  - destruct (proj1 constructor_registers_instruments ∅)
      as (i & reg' & H & Hsize & Hdom & _); try reflexivity.
    exists i, reg'. split; [exact H|]. split.
    + rewrite Hsize. reflexivity.
    + rewrite Hdom, dom_empty_L. apply (right_id_L ∅ (∪)).
  - destruct (proj2 constructor_registers_instruments ∅)
      as (i & reg' & H & Hsize & Hdom & _); try reflexivity.
    exists i, reg'. split; [exact H|]. split.
    + rewrite Hsize. reflexivity.
    + rewrite Hdom, dom_empty_L. apply (right_id_L ∅ (∪)).
Defined.

(** C9, as stated, fails for the constructor of the variant that only
    counts: on an empty registry it registers two instruments, not four, and
    neither of the duration histograms is among them. *)
Lemma counter_only_registers_two :
  ∃ i reg',
    CounterOnly.NewInterceptor ∅ = Some (i, reg') ∧
    size reg' = 2%nat ∧
    reg' !! client_duration = None ∧
    reg' !! server_duration = None.
Proof.
  eexists; eexists. split; [reflexivity|].
  vm_compute. repeat split.
Qed.

(* ===================================================================== *)
(** ** Further properties: the segments of a procedure identifier *)
(* ===================================================================== *)

Section SplitJoin.

Variable sep : ascii.

(** No segment holds the separator. *)
Lemma Split_segments_free (s : string) :
  Forall (λ seg, free_of sep seg = true) (Split s sep).
Proof.
  induction s as [|c s' IH]; simpl.
  - repeat constructor.
  - destruct (Ascii.eqb c sep) eqn:Ec.
    + constructor; [reflexivity | exact IH].
    + destruct (Split s' sep) as [|seg segs] eqn:E;
        [now destruct (Split_not_nil sep s')|].
      inversion IH as [|? ? Hseg Hsegs]; subst.
      constructor; [|exact Hsegs].
      unfold free_of in *. simpl. now rewrite Ec.
Qed.

(** Joining the segments gives the string back. *)
Lemma Join_Split (s : string) : Join (Split s sep) sep = s.
Proof.
  induction s as [|c s' IH]; simpl; [reflexivity|].
  destruct (Ascii.eqb_spec c sep) as [->|Hne].
  - destruct (Split s' sep) as [|seg segs] eqn:E;
      [now destruct (Split_not_nil sep s')|].
    change (Join ("" :: seg :: segs) sep) with (String sep (Join (seg :: segs) sep)).
    now rewrite IH.
  - destruct (Split s' sep) as [|seg segs] eqn:E;
      [now destruct (Split_not_nil sep s')|].
    destruct segs as [|seg' segs']; rewrite <- IH; reflexivity.
Qed.

End SplitJoin.

(** X2. The service and method labels lose nothing of a delegated call's
    procedure identifier but its first segment: the identifier is that first
    segment, a slash, the service label, a slash and the method label, and
    neither label (nor the first segment) holds a slash. *)
Theorem labels_rebuild_procedure (spec : Spec) (err : option error) :
  three_segments (Procedure spec) = true →
  ∃ first service method : string,
    label_values spec err
    = [code err; method; service; streamType (StreamType_of spec)] ∧
    Procedure spec = first ++ "/" ++ service ++ "/" ++ method ∧
    free_of slash first = true ∧
    free_of slash service = true ∧
    free_of slash method = true.
Proof.
  unfold three_segments, label_values. intros H%Nat.eqb_eq.
  pose proof (Join_Split slash (Procedure spec)) as HJ.
  pose proof (Split_segments_free slash (Procedure spec)) as HF.
  destruct (Split (Procedure spec) slash) as [|a [|b [|c [|d l]]]];
    try discriminate H.
  exists a, b, c. simpl in HJ.
  inversion HF as [|? ? Ha HF1]; subst.
  inversion HF1 as [|? ? Hb HF2]; subst.
  inversion HF2 as [|? ? Hc _]; subst.
  repeat split; try assumption. now rewrite <- HJ.
Qed.

(** The labels of a call of [/acme.Store/Get] that failed. *)
Lemma labels_rebuild_procedure_witness :
  ∃ first service method : string,
    label_values (mkSpec StreamTypeServer "/acme.Store/Get" true)
                 (Some (Errorf "boom"))
    = ["unknown"; method; service; "server_stream"] ∧
    "/acme.Store/Get" = first ++ "/" ++ service ++ "/" ++ method ∧
    free_of slash first = true ∧
    free_of slash service = true ∧
    free_of slash method = true.
Proof.
  apply (labels_rebuild_procedure (mkSpec StreamTypeServer "/acme.Store/Get" true)
           (Some (Errorf "boom"))).
  reflexivity.
Defined.

(* ===================================================================== *)
(** ** Further properties: every delegated call is recorded *)
(* ===================================================================== *)



(** X9. What is recorded does not depend on the context, on the message of
    the request, on the response, or on anything of the error but its code
    label: two delegated calls with the same description, whose delegates
    give errors of the same code label, take the same time and leave the
    same instruments, leave the same instruments after the recording. *)
Theorem metrics_ignore_payload :
  (∀ (Ctx1 Msg1 Resp1 W1 Ctx2 Msg2 Resp2 W2 : Type)
      (next1 : @WithDuration.UnaryFunc Ctx1 Msg1 Resp1 W1)
      (next2 : @WithDuration.UnaryFunc Ctx2 Msg2 Resp2 W2)
      ctx1 ctx2 req1 req2 st1 st2 log1 log2,
     three_segments (Procedure (Request_Spec req1)) = true →
     Request_Spec req1 = Request_Spec req2 →
     code (snd (fst (next1 ctx1 req1 st1))) = code (snd (fst (next2 ctx2 req2 st2))) →
     clock (snd (next1 ctx1 req1 st1)) - clock st1
     = clock (snd (next2 ctx2 req2 st2)) - clock st2 →
     instruments (snd (next1 ctx1 req1 st1)) = instruments (snd (next2 ctx2 req2 st2)) →
     instruments (final (WithDuration.WrapUnary next1 ctx1 req1 st1 log1))
     = instruments (final (WithDuration.WrapUnary next2 ctx2 req2 st2 log2))) ∧
  (∀ (Ctx1 Msg1 Resp1 W1 Ctx2 Msg2 Resp2 W2 : Type)
      (next1 : @CounterOnly.UnaryFunc Ctx1 Msg1 Resp1 W1)
      (next2 : @CounterOnly.UnaryFunc Ctx2 Msg2 Resp2 W2)
      ctx1 ctx2 req1 req2 st1 st2 log1 log2,
     three_segments (Procedure (Request_Spec req1)) = true →
     Request_Spec req1 = Request_Spec req2 →
     code (snd (fst (next1 ctx1 req1 st1))) = code (snd (fst (next2 ctx2 req2 st2))) →
     instruments (snd (next1 ctx1 req1 st1)) = instruments (snd (next2 ctx2 req2 st2)) →
     instruments (final (CounterOnly.WrapUnary next1 ctx1 req1 st1 log1))
     = instruments (final (CounterOnly.WrapUnary next2 ctx2 req2 st2 log2))).
Proof.
  split.
  - intros Ctx1 Msg1 Resp1 W1 Ctx2 Msg2 Resp2 W2 next1 next2 ctx1 ctx2
           req1 req2 st1 st2 log1 log2 E1 Hspec Hcode Htime Hmid.
    assert (E2 : three_segments (Procedure (Request_Spec req2)) = true)
      by now rewrite <- Hspec.
    rewrite (WithDuration_delegated next1 ctx1 req1 st1 log1 E1),
            (WithDuration_delegated next2 ctx2 req2 st2 log2 E2).
    unfold final, recorded_with_duration, label_values; simpl.
    now rewrite Hspec, Hcode, Htime, Hmid.
  - intros Ctx1 Msg1 Resp1 W1 Ctx2 Msg2 Resp2 W2 next1 next2 ctx1 ctx2
           req1 req2 st1 st2 log1 log2 E1 Hspec Hcode Hmid.
    assert (E2 : three_segments (Procedure (Request_Spec req2)) = true)
      by now rewrite <- Hspec.
    rewrite (CounterOnly_delegated next1 ctx1 req1 st1 log1 E1),
            (CounterOnly_delegated next2 ctx2 req2 st2 log2 E2).
    unfold final, recorded_counter_only, label_values; simpl.
    now rewrite Hspec, Hcode, Hmid.
Qed.

(* ===================================================================== *)
(** ** Further properties: the counts over a sequence of calls *)
(* ===================================================================== *)









(** Two calls that differ in context, message, response, error text, state
    and clock, and agree in description, code and elapsed time. *)
Lemma metrics_ignore_payload_witness :
  instruments (final (WithDuration.WrapUnary Sample.fail_not_found 1%nat
                        (Sample.request "/acme.Store/Get" StreamTypeUnary false)
                        Sample.st_full []))
  = instruments (final (WithDuration.WrapUnary Traffic.fail_gone true
                          (Traffic.request_text "/acme.Store/Get" StreamTypeUnary false)
                          Traffic.st_full_text [])) ∧
  instruments (final (CounterOnly.WrapUnary Sample.fail_not_found 1%nat
                        (Sample.request "/acme.Store/Get" StreamTypeUnary false)
                        Sample.st_counters []))
  = instruments (final (CounterOnly.WrapUnary Traffic.fail_gone true
                          (Traffic.request_text "/acme.Store/Get" StreamTypeUnary false)
                          Traffic.st_counters_text [])).
Proof.
  split.
  - apply (proj1 metrics_ignore_payload); reflexivity.
  - apply (proj2 metrics_ignore_payload); reflexivity.
Defined.

(* ===================================================================== *)
(** ** Further properties: an interceptor around an interceptor *)
(* ===================================================================== *)





(* ===================================================================== *)
(** ** Further properties: the constructor and the names of the registry *)
(* ===================================================================== *)

Lemma MustRegister_eval (name : string) (c : Collector)
      (reg : gmap string Collector) :
  MustRegister name c reg
  = if decide (is_Some (reg !! name)) then None else Some (<[name := c]> reg).
Proof.
  unfold MustRegister. destruct (reg !! name) eqn:E.
  - rewrite decide_True; [reflexivity | eexists; reflexivity].
  - rewrite decide_False; [reflexivity | intros [x Hx]; discriminate].
Qed.

(** The constructor of the variant with durations, by the four lookups. *)
Lemma WithDuration_NewInterceptor_None (reg : gmap string Collector) :
  WithDuration.NewInterceptor reg = None ↔
  ¬ (reg !! client_total = None ∧ reg !! client_duration = None ∧
     reg !! server_total = None ∧ reg !! server_duration = None).
Proof.
  unfold WithDuration.NewInterceptor, NewCounterVec, NewHistogramVec,
    client_total, client_duration, server_total, server_duration.
  cbn [Counter_Name Histogram_Name].
  rewrite MustRegister_eval.
  destruct (decide (is_Some (reg !! "connect_client_requests_total"))) as [[c1 H1]|H1];
    cbn [mbind option_bind].
  { split; [intros _ (E & _); congruence | reflexivity]. }
  rewrite MustRegister_eval, lookup_insert_ne by done.
  destruct (decide (is_Some (reg !! "connect_client_requests_duration_seconds")))
    as [[c2 H2]|H2]; cbn [mbind option_bind].
  { split; [intros _ (_ & E & _); congruence | reflexivity]. }
  rewrite MustRegister_eval, !lookup_insert_ne by done.
  destruct (decide (is_Some (reg !! "connect_server_requests_total")))
    as [[c3 H3]|H3]; cbn [mbind option_bind].
  { split; [intros _ (_ & _ & E & _); congruence | reflexivity]. }
  rewrite MustRegister_eval, !lookup_insert_ne by done.
  destruct (decide (is_Some (reg !! "connect_server_requests_duration_seconds")))
    as [[c4 H4]|H4]; cbn [mbind option_bind].
  { split; [intros _ (_ & _ & _ & E); congruence | reflexivity]. }
  split; [discriminate|]. intros Hn. exfalso. apply Hn.
  rewrite <- !eq_None_not_Some in *. repeat split; assumption.
Qed.

Lemma CounterOnly_NewInterceptor_None (reg : gmap string Collector) :
  CounterOnly.NewInterceptor reg = None ↔
  ¬ (reg !! client_total = None ∧ reg !! server_total = None).
Proof.
  unfold CounterOnly.NewInterceptor, NewCounterVec, client_total, server_total.
  cbn [Counter_Name].
  rewrite MustRegister_eval.
  destruct (decide (is_Some (reg !! "connect_client_requests_total"))) as [[c1 H1]|H1];
    cbn [mbind option_bind].
  { split; [intros _ (E & _); congruence | reflexivity]. }
  rewrite MustRegister_eval, lookup_insert_ne by done.
  destruct (decide (is_Some (reg !! "connect_server_requests_total")))
    as [[c3 H3]|H3]; cbn [mbind option_bind].
  { split; [intros _ (_ & E); congruence | reflexivity]. }
  split; [discriminate|]. intros Hn. exfalso. apply Hn.
  rewrite <- !eq_None_not_Some in *. split; assumption.
Qed.

(** X4. The constructor panics exactly when one of its names is already
    registered: any of the four for the variant with durations, either of
    the two counters for the variant that only counts. A duration name
    already taken does not stop the constructor that only counts. *)
Theorem constructor_panics_iff_name_taken :
  (∀ reg : gmap string Collector,
     WithDuration.NewInterceptor reg = None ↔
     ∃ n, n ∈ instrument_names ∧ is_Some (reg !! n)) ∧
  (∀ reg : gmap string Collector,
     CounterOnly.NewInterceptor reg = None ↔
     is_Some (reg !! client_total) ∨ is_Some (reg !! server_total)).
Proof.
  split; intros reg.
  - rewrite WithDuration_NewInterceptor_None. unfold instrument_names. split.
    + intros Hn.
      destruct (reg !! client_total) as [c|] eqn:H1;
        [exists client_total; split; [set_solver | rewrite H1; eauto]|].
      destruct (reg !! client_duration) as [c|] eqn:H2;
        [exists client_duration; split; [set_solver | rewrite H2; eauto]|].
      destruct (reg !! server_total) as [c|] eqn:H3;
        [exists server_total; split; [set_solver | rewrite H3; eauto]|].
      destruct (reg !! server_duration) as [c|] eqn:H4;
        [exists server_duration; split; [set_solver | rewrite H4; eauto]|].
      now destruct Hn.
    + intros (n & Hn & [c Hc]) (H1 & H2 & H3 & H4).
      rewrite !elem_of_union, !elem_of_singleton in Hn.
      destruct Hn as [[[-> | ->] | ->] | ->]; congruence.
  - rewrite CounterOnly_NewInterceptor_None. split.
    + intros Hn.
      destruct (reg !! client_total) as [c|] eqn:H1; [left; eauto|].
      destruct (reg !! server_total) as [c|] eqn:H3; [right; eauto|].
      now destruct Hn.
    + intros [[c Hc] | [c Hc]] (H1 & H3); congruence.
Qed.

(** A registry where the name of the client duration histogram is taken:
    the variant with durations panics, the other one does not. *)
Lemma constructor_panics_iff_name_taken_witness :
  WithDuration.NewInterceptor Registries.duration_taken = None ∧
  CounterOnly.NewInterceptor Registries.duration_taken ≠ None.
Proof.
  split.
  - apply (proj1 constructor_panics_iff_name_taken Registries.duration_taken).
    exists client_duration. split; [vm_compute; reflexivity|].
    eexists. reflexivity.
  - intros H.
    apply (proj2 constructor_panics_iff_name_taken Registries.duration_taken) in H.
    destruct H as [[c Hc] | [c Hc]]; vm_compute in Hc; discriminate Hc.
Defined.

(** What a constructor that returns has made: instruments without any count
    or observation, and a registry that holds the name of the client
    counter. *)
Lemma WithDuration_NewInterceptor_Some (reg : gmap string Collector) i reg' :
  WithDuration.NewInterceptor reg = Some (i, reg') →
  is_Some (reg' !! client_total) ∧
  Counter_metrics (WithDuration.clientRequests i) = ∅ ∧
  Histogram_metrics (WithDuration.clientDuration i) = ∅ ∧
  Counter_metrics (WithDuration.serverRequests i) = ∅ ∧
  Histogram_metrics (WithDuration.serverDuration i) = ∅.
Proof.
  unfold WithDuration.NewInterceptor, NewCounterVec, NewHistogramVec, client_total.
  cbn [Counter_Name Histogram_Name].
  rewrite MustRegister_eval.
  destruct (decide (is_Some (reg !! "connect_client_requests_total")));
    cbn [mbind option_bind]; [discriminate|].
  rewrite MustRegister_eval.
  destruct (decide _); cbn [mbind option_bind]; [discriminate|].
  rewrite MustRegister_eval.
  destruct (decide _); cbn [mbind option_bind]; [discriminate|].
  rewrite MustRegister_eval.
  destruct (decide _); cbn [mbind option_bind]; [discriminate|].
  intros [= <- <-]. cbn. repeat split.
  rewrite !lookup_insert_ne by done. rewrite lookup_insert_eq. eauto.
Qed.

Lemma CounterOnly_NewInterceptor_Some (reg : gmap string Collector) i reg' :
  CounterOnly.NewInterceptor reg = Some (i, reg') →
  is_Some (reg' !! client_total) ∧
  Counter_metrics (CounterOnly.clientRequests i) = ∅ ∧
  Counter_metrics (CounterOnly.serverRequests i) = ∅.
Proof.
  unfold CounterOnly.NewInterceptor, NewCounterVec, client_total.
  cbn [Counter_Name].
  rewrite MustRegister_eval.
  destruct (decide (is_Some (reg !! "connect_client_requests_total")));
    cbn [mbind option_bind]; [discriminate|].
  rewrite MustRegister_eval.
  destruct (decide _); cbn [mbind option_bind]; [discriminate|].
  intros [= <- <-]. cbn. repeat split.
  rewrite !lookup_insert_ne by done. rewrite lookup_insert_eq. eauto.
Qed.

(** X5. One registry takes one interceptor: on the registry that a
    constructor returned, the same constructor panics, and so does the
    constructor of the other variant, whose counters have the same names. *)
Theorem constructor_twice_panics :
  (∀ (reg : gmap string Collector) i reg',
     WithDuration.NewInterceptor reg = Some (i, reg') →
     WithDuration.NewInterceptor reg' = None ∧
     CounterOnly.NewInterceptor reg' = None) ∧
  (∀ (reg : gmap string Collector) i reg',
     CounterOnly.NewInterceptor reg = Some (i, reg') →
     CounterOnly.NewInterceptor reg' = None ∧
     WithDuration.NewInterceptor reg' = None).
Proof.
  split; intros reg i reg' H.
  - apply WithDuration_NewInterceptor_Some in H as [[c Hc] _].
    split.
    + apply WithDuration_NewInterceptor_None. intros (E & _). congruence.
    + apply CounterOnly_NewInterceptor_None. intros (E & _). congruence.
  - apply CounterOnly_NewInterceptor_Some in H as [[c Hc] _].
    split.
    + apply CounterOnly_NewInterceptor_None. intros (E & _). congruence.
    + apply WithDuration_NewInterceptor_None. intros (E & _). congruence.
Qed.

(** The registry made by each constructor on an empty one. *)
Lemma constructor_twice_panics_witness :
  match WithDuration.NewInterceptor ∅ with
  | Some (_, reg') => WithDuration.NewInterceptor reg' = None
  | None => False
  end ∧
  match CounterOnly.NewInterceptor ∅ with
  | Some (_, reg') => CounterOnly.NewInterceptor reg' = None
  | None => False
  end.
Proof.
  split.
  - destruct (WithDuration.NewInterceptor ∅) as [[i reg']|] eqn:E.
    + exact (proj1 (proj1 constructor_twice_panics ∅ i reg' E)).
    + vm_compute in E. discriminate E.
  - destruct (CounterOnly.NewInterceptor ∅) as [[i reg']|] eqn:E.
    + exact (proj1 (proj2 constructor_twice_panics ∅ i reg' E)).
    + vm_compute in E. discriminate E.
Defined.



(* ===================================================================== *)
(** ** Further properties: the labels tell the outcomes and shapes apart *)
(* ===================================================================== *)

(** X7. The type label tells the shapes apart: it is empty exactly for the
    values that are none of the four constants, and two values with the
    same non-empty label are the same shape. *)
Theorem streamType_distinguishes_shapes :
  (∀ t : StreamType,
     streamType t = "" ↔
     t ≠ StreamTypeUnary ∧ t ≠ StreamTypeClient ∧
     t ≠ StreamTypeServer ∧ t ≠ StreamTypeBidi) ∧
  (∀ t1 t2 : StreamType,
     streamType t1 ≠ "" → streamType t1 = streamType t2 → t1 = t2).
Proof.
  split.
  - intros t. unfold streamType.
    destruct (Z.eqb_spec t StreamTypeUnary) as [->|HU];
      [split; [discriminate | intros (H & _); now destruct H]|].
    destruct (Z.eqb_spec t StreamTypeClient) as [->|HC];
      [split; [discriminate | intros (_ & H & _); now destruct H]|].
    destruct (Z.eqb_spec t StreamTypeServer) as [->|HS];
      [split; [discriminate | intros (_ & _ & H & _); now destruct H]|].
    destruct (Z.eqb_spec t StreamTypeBidi) as [->|HB];
      [split; [discriminate | intros (_ & _ & _ & H); now destruct H]|].
    split; [intros _; repeat split; assumption | reflexivity].
  - intros t1 t2. unfold streamType.
    destruct (Z.eqb_spec t1 StreamTypeUnary) as [->|?];
      [|destruct (Z.eqb_spec t1 StreamTypeClient) as [->|?];
        [|destruct (Z.eqb_spec t1 StreamTypeServer) as [->|?];
          [|destruct (Z.eqb_spec t1 StreamTypeBidi) as [->|?];
            [|intros H; now destruct H]]]];
      intros _;
      (destruct (Z.eqb_spec t2 StreamTypeUnary) as [->|?];
        [|destruct (Z.eqb_spec t2 StreamTypeClient) as [->|?];
          [|destruct (Z.eqb_spec t2 StreamTypeServer) as [->|?];
            [|destruct (Z.eqb_spec t2 StreamTypeBidi) as [->|?]]]]);
      first [reflexivity | discriminate].
Qed.

(** The byte 3 has the label of the bidirectional shape, and is it. *)
Lemma streamType_distinguishes_shapes_witness :
  streamType 3 ≠ "" ∧ 3 = StreamTypeBidi.
Proof.
  split; [discriminate|].
  apply (proj2 streamType_distinguishes_shapes 3 StreamTypeBidi);
    [discriminate | reflexivity].
Defined.

(** X8. A failure is never counted as a success: the code label is "ok"
    exactly when the delegate returned no error. *)
Theorem code_ok_iff_no_error (err : option error) :
  code err = "ok" ↔ err = None.
Proof.
  split; [|now intros ->].
  destruct err as [e|]; [|reflexivity].
  simpl. destruct (CodeOf e); discriminate.
Qed.

(** An error of the framework and a plain one. *)
Lemma code_ok_iff_no_error_witness :
  code (Some (NewError CodeAborted (Errorf "x"))) ≠ "ok" ∧
  code (Some (Errorf "ok")) ≠ "ok".
Proof.
  split; intros H.
  - apply (proj1 (code_ok_iff_no_error _)) in H. discriminate H.
  - apply (proj1 (code_ok_iff_no_error _)) in H. discriminate H.
Defined.
